(** * Live ring modulator (script.js): a shallow embedding and its properties

    The script builds a Web Audio patch (microphone carrier, modulator
    oscillator, constant source, two gain nodes), leaves the connections
    to the student, and installs three UI listeners: an on/off button and
    two sliders.

    JavaScript numbers are read as real numbers ([R]); rounding of IEEE
    doubles is outside this development.  The Web Audio objects the script
    calls (AudioContext, AudioParam automation, node rendering) are
    modelled after the W3C Web Audio API, restricted to the calls the
    script makes. *)

From Stdlib Require Import Reals Lra List String Bool PeanoNat.
Import ListNotations.
Open Scope R_scope.

(** ** Comparisons on numbers, as booleans *)

Definition Rltb (x y : R) : bool := if Rlt_dec x y then true else false.
Definition Rleb (x y : R) : bool := if Rle_dec x y then true else false.

(** ** AudioParam: the automation timeline of one parameter

    Only the two scheduling calls of the script are modelled:
    [cancelScheduledValues] and [linearRampToValueAtTime]. *)

Module AudioParam.

Inductive AutomationEvent : Type :=
| SetValue (value time : R)
| LinearRampToValue (value endTime : R).

Definition eventTime (e : AutomationEvent) : R :=
  match e with SetValue _ t => t | LinearRampToValue _ t => t end.

Definition eventValue (e : AutomationEvent) : R :=
  match e with SetValue v _ => v | LinearRampToValue v _ => v end.

(** [value] is what the constructor option set ([{ gain: 0. }] and the
    like); [events] is the list of scheduled changes, in time order. *)
Record t : Type := mk { value : R; events : list AutomationEvent }.

Definition create (v : R) : t := mk v [].

(** A new event goes after the events scheduled at or before its time. *)
Fixpoint insertEvent (e : AutomationEvent) (l : list AutomationEvent)
  : list AutomationEvent :=
  match l with
  | [] => [e]
  | x :: rest =>
      if Rltb (eventTime e) (eventTime x) then e :: x :: rest
      else x :: insertEvent e rest
  end.

(** The value the timeline gives at time [t], walking the events with
    the last event passed ([prevV] at [prevT]).  A ramp interpolates
    from the previous event to its own end point. *)
Fixpoint timeline (prevV prevT : R) (evs : list AutomationEvent) (t : R) : R :=
  match evs with
  | [] => prevV
  | e :: rest =>
      if Rltb t (eventTime e) then
        match e with
        | SetValue _ _ => prevV
        | LinearRampToValue v1 t1 =>
            prevV + (v1 - prevV) * ((t - prevT) / (t1 - prevT))
        end
      else timeline (eventValue e) (eventTime e) rest t
  end.

Definition valueAt (p : t) (time : R) : R :=
  timeline (value p) 0 (events p) time.

(** Removes every scheduled change whose time is [>= cancelTime]. *)
Definition cancelScheduledValues (cancelTime : R) (p : t) : t :=
  mk (value p) (filter (fun e => Rltb (eventTime e) cancelTime) (events p)).

(** Schedules a ramp ending at [endTime].  With no event before it, the
    ramp starts as if [setValueAtTime (current value, currentTime)] had
    been called. *)
Definition linearRampToValueAtTime (currentTime v endTime : R) (p : t) : t :=
  let before :=
    if existsb (fun e => Rleb (eventTime e) endTime) (events p)
    then events p
    else insertEvent (SetValue (valueAt p currentTime) currentTime) (events p) in
  mk (value p) (insertEvent (LinearRampToValue v endTime) before).

End AudioParam.

(** ** AudioContext: running or suspended, with its own clock *)

Inductive AudioContextState : Type := suspended | running.

Inductive Exn : Type := DOMException (name : string).

Module AudioContext.

(** [pending] holds the target states of the [suspend()] / [resume()]
    promises the device has not settled yet, oldest first. *)
Record t : Type := mk {
  state : AudioContextState;
  currentTime : R;
  pending : list AudioContextState
}.

(** [new AudioContext()]: running at once where the host allows audio
    without a user gesture, suspended otherwise. *)
Definition create (autoplay : bool) : t :=
  mk (if autoplay then running else suspended) 0 [].

Definition suspend (c : t) : t :=
  mk (state c) (currentTime c) (pending c ++ [suspended]).

Definition resume (c : t) : t :=
  mk (state c) (currentTime c) (pending c ++ [running]).

(** The device answers the oldest pending request: the state changes only
    when the request is fulfilled. *)
Definition settle (rejection : option Exn) (c : t) : t :=
  match pending c with
  | [] => c
  | target :: rest =>
      mk (match rejection with None => target | Some _ => state c end)
         (currentTime c) rest
  end.

(** The clock advances while running and is frozen while suspended. *)
Definition advance (dt : R) (c : t) : t :=
  match state c with
  | running => mk running (currentTime c + dt) (pending c)
  | suspended => c
  end.

End AudioContext.

(** ** Nodes *)

Definition MediaStream : Type := nat.

Record MediaTrackConstraints : Type := {
  echoCancellation : bool;
  noiseSuppression : bool;
  autoGainControl : bool
}.

Record MediaStreamConstraints : Type := { audio : MediaTrackConstraints }.

Record MediaStreamAudioSourceNode : Type := { mediaStream : MediaStream }.

Record OscillatorNode : Type := {
  frequency : AudioParam.t;
  oscillatorStarted : bool
}.

Record ConstantSourceNode : Type := {
  offset : AudioParam.t;
  sourceStarted : bool
}.

Record GainNode : Type := { gain : AudioParam.t }.

(** ** The audio graph and what it renders at one sample instant *)

Module Graph.

Inductive Node : Type :=
| micNode | modOsc | modFreq | modulationGainNode | masterGainNode
| destination.

Inductive Param : Type :=
| modOsc_frequency | modFreq_offset
| modulationGainNode_gain | masterGainNode_gain.

(** [a.connect(b)] feeds a node input, [a.connect(b.param)] a parameter. *)
Inductive Target : Type :=
| nodeInput (n : Node)
| paramInput (p : Param).

Definition Connection : Type := (Node * Target)%type.

Definition Node_eqb (a b : Node) : bool :=
  match a, b with
  | micNode, micNode | modOsc, modOsc | modFreq, modFreq
  | modulationGainNode, modulationGainNode
  | masterGainNode, masterGainNode | destination, destination => true
  | _, _ => false
  end.

Definition Param_eqb (a b : Param) : bool :=
  match a, b with
  | modOsc_frequency, modOsc_frequency | modFreq_offset, modFreq_offset
  | modulationGainNode_gain, modulationGainNode_gain
  | masterGainNode_gain, masterGainNode_gain => true
  | _, _ => false
  end.

Definition Target_eqb (a b : Target) : bool :=
  match a, b with
  | nodeInput n, nodeInput m => Node_eqb n m
  | paramInput p, paramInput q => Param_eqb p q
  | _, _ => false
  end.

(** The nodes connected to a target. *)
Definition feeding (conns : list Connection) (tgt : Target) : list Node :=
  map fst (filter (fun c => Target_eqb (snd c) tgt) conns).

Definition sum (l : list R) : R := fold_right Rplus 0 l.

Section Render.

Variable conns : list Connection.
(** The value each parameter's own timeline gives at this instant. *)
Variable intrinsic : Param -> R.
(** Whether [start()] has been called on a source node. *)
Variable started : Node -> bool.
(** The microphone's and the oscillator's samples at this instant. *)
Variables carrier oscillator : R.

(** A node's output sample.  An input sums the outputs connected to it; a
    parameter adds the outputs connected to it to its own value; a gain
    node multiplies its input by its gain.  [fuel] bounds the length of the
    path followed upstream. *)
Fixpoint output (fuel : nat) (n : Node) : R :=
  match fuel with
  | O => 0
  | S k =>
      let input (tgt : Target) := sum (map (output k) (feeding conns tgt)) in
      let computed (p : Param) := intrinsic p + input (paramInput p) in
      match n with
      | micNode => carrier
      | modOsc => if started modOsc then oscillator else 0
      | modFreq => if started modFreq then computed modFreq_offset else 0
      | modulationGainNode =>
          input (nodeInput modulationGainNode) * computed modulationGainNode_gain
      | masterGainNode =>
          input (nodeInput masterGainNode) * computed masterGainNode_gain
      | destination => input (nodeInput destination)
      end
  end.

(** The value a parameter takes: its own, plus what is connected to it. *)
Definition computedValue (fuel : nat) (p : Param) : R :=
  intrinsic p + sum (map (output fuel) (feeding conns (paramInput p))).

End Render.

(** Six nodes: no path without a repeated node is longer. *)
Definition pathBound : nat := 6.

End Graph.

(** ** The script *)

(** [**] with a positive base. *)
Definition db2a (dBFS : R) : R := Rpower 10 (dBFS / 20).


(** What an element shows: a fixed string, or a template literal that
    formats a number before its unit. *)
Inductive InnerText : Type :=
| Text (s : string)
| Formatted (n : R) (unit : string).

Inductive LogEntry : Type :=
| LogBoolean (b : bool)
| LogNumber (x : R).

(** What the page and the device decide: whether a new context may run
    without a user gesture, how the first [suspend()] and [getUserMedia]
    answer, and the texts the HTML gives the button and the labels. *)
Record Host : Type := {
  autoplay : bool;
  suspendAtLoad : option Exn;
  getUserMedia : MediaStreamConstraints -> Exn + MediaStream;
  buttonText : InnerText;
  modLabelText : InnerText;
  gainLabelText : InnerText
}.

(** The script's bindings.  [onOff], [modLabel] and [gainLabel] stand for
    the [innerText] of the elements; [rejections] collects the rejections
    of listener promises, which nothing catches. *)
Record Script : Type := mkScript {
  liveRingModCtx : AudioContext.t;
  micNode : MediaStreamAudioSourceNode;
  modOsc : OscillatorNode;
  modFreq : ConstantSourceNode;
  modulationGainNode : GainNode;
  masterGainNode : GainNode;
  audioOn : bool;
  onOff : InnerText;
  modLabel : InnerText;
  gainLabel : InnerText;
  console : list LogEntry;
  rejections : list Exn
}.

Definition set_liveRingModCtx (c : AudioContext.t) (s : Script) : Script :=
  mkScript c (micNode s) (modOsc s) (modFreq s) (modulationGainNode s)
    (masterGainNode s) (audioOn s) (onOff s) (modLabel s) (gainLabel s)
    (console s) (rejections s).

Definition set_modFreq (n : ConstantSourceNode) (s : Script) : Script :=
  mkScript (liveRingModCtx s) (micNode s) (modOsc s) n (modulationGainNode s)
    (masterGainNode s) (audioOn s) (onOff s) (modLabel s) (gainLabel s)
    (console s) (rejections s).

Definition set_masterGainNode (n : GainNode) (s : Script) : Script :=
  mkScript (liveRingModCtx s) (micNode s) (modOsc s) (modFreq s)
    (modulationGainNode s) n (audioOn s) (onOff s) (modLabel s) (gainLabel s)
    (console s) (rejections s).

Definition set_audioOn (b : bool) (s : Script) : Script :=
  mkScript (liveRingModCtx s) (micNode s) (modOsc s) (modFreq s)
    (modulationGainNode s) (masterGainNode s) b (onOff s) (modLabel s)
    (gainLabel s) (console s) (rejections s).

Definition set_onOff (x : InnerText) (s : Script) : Script :=
  mkScript (liveRingModCtx s) (micNode s) (modOsc s) (modFreq s)
    (modulationGainNode s) (masterGainNode s) (audioOn s) x (modLabel s)
    (gainLabel s) (console s) (rejections s).

Definition set_modLabel (x : InnerText) (s : Script) : Script :=
  mkScript (liveRingModCtx s) (micNode s) (modOsc s) (modFreq s)
    (modulationGainNode s) (masterGainNode s) (audioOn s) (onOff s) x
    (gainLabel s) (console s) (rejections s).

Definition set_gainLabel (x : InnerText) (s : Script) : Script :=
  mkScript (liveRingModCtx s) (micNode s) (modOsc s) (modFreq s)
    (modulationGainNode s) (masterGainNode s) (audioOn s) (onOff s)
    (modLabel s) x (console s) (rejections s).

Definition console_log (e : LogEntry) (s : Script) : Script :=
  mkScript (liveRingModCtx s) (micNode s) (modOsc s) (modFreq s)
    (modulationGainNode s) (masterGainNode s) (audioOn s) (onOff s)
    (modLabel s) (gainLabel s) (console s ++ [e]) (rejections s).

Definition unhandled (e : Exn) (s : Script) : Script :=
  mkScript (liveRingModCtx s) (micNode s) (modOsc s) (modFreq s)
    (modulationGainNode s) (masterGainNode s) (audioOn s) (onOff s)
    (modLabel s) (gainLabel s) (console s) (rejections s ++ [e]).

(** *** Module evaluation (lines 1-125): a rejected top-level [await]
    throws, and the rest of the module is not evaluated. *)

Definition Result (A : Type) : Type := (Exn + A)%type.

Definition bind {A B : Type} (r : Result A) (k : A -> Result B) : Result B :=
  match r with inl e => inl e | inr a => k a end.

Notation "x <- r ;; k" := (bind r (fun x => k))
  (at level 61, r at next level, right associativity).

(** [await ctx.suspend()] at load time: the host's answer is in hand. *)
Definition await_suspend (answer : option Exn) (c : AudioContext.t)
  : Result AudioContext.t :=
  match answer with
  | Some e => inl e
  | None => inr (AudioContext.settle None (AudioContext.suspend c))
  end.

Definition micConstraints : MediaStreamConstraints :=
  {| audio := {| echoCancellation := false;
                 noiseSuppression := false;
                 autoGainControl := false |} |}.

(** The connections the script makes between lines 76 and 104: none. *)
Definition connections : list Graph.Connection := [].

(** The start-up check of the button (lines 111-117). *)
Definition initialButton (c : AudioContext.t) (html : InnerText)
  : bool * InnerText :=
  match AudioContext.state c with
  | running => (true, Text "Off")
  | suspended => (false, html)
  end.

Definition load (h : Host) : Result Script :=
  ctx <- await_suspend (suspendAtLoad h) (AudioContext.create (autoplay h)) ;;
  micInputStream <- getUserMedia h micConstraints ;;
  let micNode := {| mediaStream := micInputStream |} in
  let modOsc := {| frequency := AudioParam.create 0;
                   oscillatorStarted := true |} in
  let modFreq := {| offset := AudioParam.create 5;
                    sourceStarted := true |} in
  let modulationGainNode := {| gain := AudioParam.create 0 |} in
  let masterGainNode := {| gain := AudioParam.create 1 |} in
  let button := initialButton ctx (buttonText h) in
  inr (mkScript ctx micNode modOsc modFreq modulationGainNode masterGainNode
         (fst button) (snd button) (modLabelText h) (gainLabelText h) [] []).

(** *** Listeners (lines 132-173) *)

(** The click listener up to its [await]: the request is left pending. *)
Definition onOff_click (s : Script) : Script :=
  let s := console_log (LogBoolean (audioOn s)) s in
  if audioOn s then
    let s := set_onOff (Text "Turn Off") s in
    let s := set_audioOn false s in
    set_liveRingModCtx (AudioContext.suspend (liveRingModCtx s)) s
  else
    let s := set_onOff (Text "Turn On") s in
    let s := set_audioOn true s in
    set_liveRingModCtx (AudioContext.resume (liveRingModCtx s)) s.

(** The awaited promise settles: the listener has nothing left to run, and
    a rejection goes uncaught. *)
Definition onOff_settled (rejection : option Exn) (s : Script) : Script :=
  match AudioContext.pending (liveRingModCtx s) with
  | [] => s
  | _ :: _ =>
      let s := set_liveRingModCtx
                 (AudioContext.settle rejection (liveRingModCtx s)) s in
      match rejection with
      | None => s
      | Some e => unhandled e s
      end
  end.

(** [value] is [Number(event.target.value)]; the label shows the same
    number before its unit. *)
Definition modSlider_input (value : R) (s : Script) : Script :=
  let newModRate := value in
  let s := set_modLabel (Formatted value " Hz") s in
  let now := AudioContext.currentTime (liveRingModCtx s) in
  let p := AudioParam.cancelScheduledValues now (offset (modFreq s)) in
  let p := AudioParam.linearRampToValueAtTime now newModRate (now + 0.01) p in
  let s := set_modFreq {| offset := p;
                          sourceStarted := sourceStarted (modFreq s) |} s in
  console_log (LogNumber (AudioParam.valueAt (frequency (modOsc s)) now)) s.

Definition gainSlider_input (value : R) (s : Script) : Script :=
  let newDBFS := value in
  let s := set_gainLabel (Formatted newDBFS " dBFS") s in
  let now := AudioContext.currentTime (liveRingModCtx s) in
  let p := AudioParam.cancelScheduledValues now (gain (masterGainNode s)) in
  let p := AudioParam.linearRampToValueAtTime now (db2a newDBFS) (now + 0.01) p in
  set_masterGainNode {| gain := p |} s.

(** *** What can happen after load *)

Inductive Event : Type :=
| Click
| Settled (rejection : option Exn)
| ModInput (value : R)
| GainInput (value : R)
| Rendered (dt : R).

Definition dispatch (s : Script) (e : Event) : Script :=
  match e with
  | Click => onOff_click s
  | Settled r => onOff_settled r s
  | ModInput v => modSlider_input v s
  | GainInput v => gainSlider_input v s
  | Rendered dt =>
      set_liveRingModCtx (AudioContext.advance dt (liveRingModCtx s)) s
  end.

Definition run (s : Script) (evs : list Event) : Script :=
  fold_left dispatch evs s.

(** *** What the graph carries *)

Definition now (s : Script) : R := AudioContext.currentTime (liveRingModCtx s).

Definition param (s : Script) (p : Graph.Param) : AudioParam.t :=
  match p with
  | Graph.modOsc_frequency => frequency (modOsc s)
  | Graph.modFreq_offset => offset (modFreq s)
  | Graph.modulationGainNode_gain => gain (modulationGainNode s)
  | Graph.masterGainNode_gain => gain (masterGainNode s)
  end.

Definition started (s : Script) (n : Graph.Node) : bool :=
  match n with
  | Graph.modOsc => oscillatorStarted (modOsc s)
  | Graph.modFreq => sourceStarted (modFreq s)
  | _ => true
  end.

(** The sample a node puts out when the microphone gives [c] and the
    oscillator [o]. *)
Definition nodeOutput (s : Script) (c o : R) (n : Graph.Node) : R :=
  Graph.output connections (fun p => AudioParam.valueAt (param s p) (now s))
    (started s) c o Graph.pathBound n.

(** The value a parameter takes in the graph, connections included. *)
Definition computedValue (s : Script) (c o : R) (p : Graph.Param) : R :=
  Graph.computedValue connections
    (fun p => AudioParam.valueAt (param s p) (now s))
    (started s) c o Graph.pathBound p.

(** What the audio sink receives: nothing while the context is suspended. *)
Definition delivered (s : Script) (c o : R) : option R :=
  match AudioContext.state (liveRingModCtx s) with
  | running => Some (nodeOutput s c o Graph.destination)
  | suspended => None
  end.

(** *** The automation step both sliders apply to their parameter *)

Definition rampTime : R := 0.01.

Definition update (now v : R) (p : AudioParam.t) : AudioParam.t :=
  AudioParam.linearRampToValueAtTime now v (now + rampTime)
    (AudioParam.cancelScheduledValues now p).


(** Events scheduled strictly before [t]. *)
Definition earlier (t : R) (l : list AudioParam.AutomationEvent)
  : list AudioParam.AutomationEvent :=
  filter (fun e => Rltb (AudioParam.eventTime e) t) l.



(** A context at rest: suspended, with no request in flight. *)
Definition atRest (s : Script) : Prop :=
  AudioContext.state (liveRingModCtx s) = suspended /\
  AudioContext.pending (liveRingModCtx s) = [].

(** ** Hosts and states for concrete runs *)

(** A host that grants everything. *)
Definition exampleHost : Host :=
  {| autoplay := false;
     suspendAtLoad := None;
     getUserMedia := fun _ => inr 0%nat;
     buttonText := Text "On";
     modLabelText := Text "5 Hz";
     gainLabelText := Text "0 dBFS" |}.

(** A host without a microphone. *)
Definition deafHost : Host :=
  {| autoplay := false;
     suspendAtLoad := None;
     getUserMedia := fun _ => inl (DOMException "NotFoundError");
     buttonText := Text "On";
     modLabelText := Text "5 Hz";
     gainLabelText := Text "0 dBFS" |}.

(** The state [load] builds on [exampleHost]. *)
Definition exampleScript : Script :=
  mkScript (AudioContext.mk suspended 0 [])
    {| mediaStream := 0%nat |}
    {| frequency := AudioParam.create 0; oscillatorStarted := true |}
    {| offset := AudioParam.create 5; sourceStarted := true |}
    {| gain := AudioParam.create 0 |}
    {| gain := AudioParam.create 1 |}
    false (Text "On") (Text "5 Hz") (Text "0 dBFS") [] [].


(** ** Notions used to state what runs preserve *)






Definition logsZero (l : LogEntry) : Prop :=
  match l with LogNumber x => x = 0 | LogBoolean _ => True end.

(** The button says "Turn On" while the flag is set, "Turn Off" while it
    is not. *)
Definition labelled (s : Script) : Prop :=
  onOff s = Text (if audioOn s then "Turn On" else "Turn Off").


(** Kinds of events a run may be free of. *)
Definition noRate (e : Event) : Prop :=
  match e with ModInput _ => False | _ => True end.

Definition noLevel (e : Event) : Prop :=
  match e with GainInput _ => False | _ => True end.

Definition noClick (e : Event) : Prop :=
  match e with Click => False | _ => True end.

Definition noRender (e : Event) : Prop :=
  match e with Rendered _ => False | _ => True end.

(** What a run from [s] to [s'] leaves untouched: always, and when it is
    free of one kind of event. *)
Definition framed (noR noL noC noT : Prop) (s s' : Script) : Prop :=
  (micNode s' = micNode s /\ modOsc s' = modOsc s /\
   modulationGainNode s' = modulationGainNode s /\
   sourceStarted (modFreq s') = sourceStarted (modFreq s)) /\
  (noR -> modFreq s' = modFreq s /\ modLabel s' = modLabel s) /\
  (noL -> masterGainNode s' = masterGainNode s /\ gainLabel s' = gainLabel s) /\
  (noC -> audioOn s' = audioOn s /\ onOff s' = onOff s) /\
  (noT -> now s' = now s).

(** * Properties *)

(** ** Comparisons *)

Lemma Rltb_true x y : Rltb x y = true <-> x < y.
Proof. unfold Rltb; destruct (Rlt_dec x y); split; intros; auto; discriminate. Qed.

Lemma Rltb_false x y : Rltb x y = false <-> y <= x.
Proof.
  unfold Rltb; destruct (Rlt_dec x y); split; intros; auto; try discriminate; lra.
Qed.

Lemma Rleb_true x y : Rleb x y = true <-> x <= y.
Proof. unfold Rleb; destruct (Rle_dec x y); split; intros; auto; discriminate. Qed.

Lemma Rleb_false x y : Rleb x y = false <-> y < x.
Proof.
  unfold Rleb; destruct (Rle_dec x y); split; intros; auto; try discriminate; lra.
Qed.

(** Decide every comparison in sight, then finish by linear arithmetic. *)
Ltac cmp :=
  repeat match goal with
  | H : Rltb _ _ = true |- _ => apply Rltb_true in H
  | H : Rltb _ _ = false |- _ => apply Rltb_false in H
  | H : Rleb _ _ = true |- _ => apply Rleb_true in H
  | H : Rleb _ _ = false |- _ => apply Rleb_false in H
  | |- context [Rltb ?a ?b] => destruct (Rltb a b) eqn:?
  | |- context [Rleb ?a ?b] => destruct (Rleb a b) eqn:?
  end;
  try reflexivity; try discriminate; try lra.

(** ** The automation timeline *)

Section Timeline.

Import AudioParam.

Lemma earlier_before t l : Forall (fun e => eventTime e < t) (earlier t l).
Proof.
  unfold earlier. apply Forall_forall. intros e He.
  apply filter_In in He. destruct He as [_ He]. now apply Rltb_true.
Qed.

Lemma insertEvent_last e l :
  Forall (fun x => eventTime x <= eventTime e) l -> insertEvent e l = l ++ [e].
Proof.
  induction 1 as [|x l Hx _ IH]; simpl; [reflexivity|].
  destruct (Rltb (eventTime e) (eventTime x)) eqn:E.
  - apply Rltb_true in E. lra.
  - now rewrite IH.
Qed.




(** What [update] leaves on the timeline: the events before [now], a
    starting point at [now] when none is left, and the new ramp. *)
Lemma update_events now v p :
  events (update now v p) =
  earlier now (events p)
  ++ (match earlier now (events p) with
      | [] => [SetValue (value p) now]
      | _ :: _ => []
      end)
  ++ [LinearRampToValue v (now + rampTime)].
Proof.
  unfold update, linearRampToValueAtTime, cancelScheduledValues. simpl.
  fold (earlier now (events p)).
  pose proof (earlier_before now (events p)) as Hb.
  destruct (earlier now (events p)) as [|e k] eqn:Ek.
  - simpl. unfold valueAt. simpl. unfold rampTime. cmp.
  - assert (Hex : existsb (fun x => Rleb (eventTime x) (now + rampTime)) (e :: k) = true).
    { simpl. inversion Hb; subst. unfold rampTime.
      destruct (Rleb (eventTime e) (now + 0.01)) eqn:E; [reflexivity|].
      apply Rleb_false in E. lra. }
    rewrite Hex. rewrite insertEvent_last; [reflexivity|].
    simpl. eapply Forall_impl; [|exact Hb]. simpl. unfold rampTime. intros; lra.
Qed.






End Timeline.

(** ** Decibels to amplitude *)




(** ** Module evaluation *)

Lemma load_inversion h s :
  load h = inr s ->
  suspendAtLoad h = None /\
  exists stream,
    getUserMedia h micConstraints = inr stream /\
    s = mkScript (AudioContext.mk suspended 0 [])
          {| mediaStream := stream |}
          {| frequency := AudioParam.create 0; oscillatorStarted := true |}
          {| offset := AudioParam.create 5; sourceStarted := true |}
          {| gain := AudioParam.create 0 |}
          {| gain := AudioParam.create 1 |}
          false (buttonText h) (modLabelText h) (gainLabelText h) [] [].
Proof.
  unfold load, await_suspend. intros H.
  destruct (suspendAtLoad h) as [e|]; simpl in H; [discriminate|].
  split; [reflexivity|].
  destruct (getUserMedia h micConstraints) as [e|stream]; simpl in H;
    [discriminate|].
  exists stream. split; [reflexivity|].
  destruct (autoplay h); simpl in H; injection H as <-; reflexivity.
Qed.

(** C8.  The microphone is requested with echo cancellation, noise
    suppression and automatic gain control all off; when the request
    fails, no script state is built, and with the context suspended as
    asked the failure itself is what module evaluation throws; when a
    state is built, its carrier is the stream the host gave. *)
Theorem microphone_raw_and_required :
  echoCancellation (audio micConstraints) = false /\
  noiseSuppression (audio micConstraints) = false /\
  autoGainControl (audio micConstraints) = false /\
  (forall h e, getUserMedia h micConstraints = inl e ->
     (forall s, load h <> inr s) /\
     (suspendAtLoad h = None -> load h = inl e)) /\
  (forall h s, load h = inr s ->
     getUserMedia h micConstraints = inr (mediaStream (micNode s))).
Proof.
  repeat split.
  - intros s Hs. apply load_inversion in Hs.
    destruct Hs as [_ [stream [Hg _]]]. congruence.
  - intros Hsusp. unfold load, await_suspend. rewrite Hsusp. simpl.
    rewrite H. reflexivity.
  - intros h s Hs. apply load_inversion in Hs.
    destruct Hs as [_ [stream [Hg ->]]]. exact Hg.
Qed.

Lemma microphone_raw_and_required_witness :
  load deafHost = inl (DOMException "NotFoundError").
Proof.
  apply (proj1 (proj2 (proj2 (proj2 microphone_raw_and_required)))
           deafHost (DOMException "NotFoundError") eq_refl).
  reflexivity.
Defined.

(** ** What the listeners leave alone *)

Lemma dispatch_modulationGainNode s e :
  modulationGainNode (dispatch s e) = modulationGainNode s.
Proof.
  destruct e as [|r|v|v|dt]; simpl;
    unfold onOff_click, onOff_settled, modSlider_input, gainSlider_input; simpl.
  - destruct (audioOn s); reflexivity.
  - destruct (AudioContext.pending (liveRingModCtx s)); [reflexivity|].
    destruct r; reflexivity.
  - reflexivity.
  - reflexivity.
  - reflexivity.
Qed.

Lemma dispatch_modOsc s e : modOsc (dispatch s e) = modOsc s.
Proof.
  destruct e as [|r|v|v|dt]; simpl;
    unfold onOff_click, onOff_settled, modSlider_input, gainSlider_input; simpl.
  - destruct (audioOn s); reflexivity.
  - destruct (AudioContext.pending (liveRingModCtx s)); [reflexivity|].
    destruct r; reflexivity.
  - reflexivity.
  - reflexivity.
  - reflexivity.
Qed.

Lemma run_modulationGainNode evs : forall s,
  modulationGainNode (run s evs) = modulationGainNode s.
Proof.
  unfold run. induction evs as [|e evs IH]; intros s; simpl; [reflexivity|].
  rewrite IH. apply dispatch_modulationGainNode.
Qed.


Lemma dispatch_atRest s e : e <> Click -> atRest s -> atRest (dispatch s e).
Proof.
  intros Hne [Hst Hp]. unfold atRest.
  destruct e as [|r|v|v|dt]; simpl;
    unfold onOff_settled, modSlider_input, gainSlider_input; simpl.
  - congruence.
  - rewrite Hp. auto.
  - auto.
  - auto.
  - unfold AudioContext.advance. rewrite Hst. auto.
Qed.

Lemma run_atRest evs : forall s,
  ~ In Click evs -> atRest s -> atRest (run s evs).
Proof.
  unfold run. induction evs as [|e evs IH]; intros s Hno Hs; simpl; [exact Hs|].
  apply IH.
  - intros Hin. apply Hno. now right.
  - apply dispatch_atRest; [|exact Hs]. intros ->. apply Hno. now left.
Qed.

(** ** The state after load *)

Lemma load_exampleHost : load exampleHost = inr exampleScript.
Proof. reflexivity. Qed.

(** C5.  When module evaluation succeeds, the context is suspended, the
    constant source that sets the modulation rate is at 5 (Hz), the
    modulation depth is 0 and the output gain is 1 (which is [db2a 0]); the
    sink receives nothing, and keeps receiving nothing through any events
    that do not include a click, the only listener that calls [resume()]. *)
Theorem initial_state h s :
  load h = inr s ->
  AudioContext.state (liveRingModCtx s) = suspended /\
  offset (modFreq s) = AudioParam.create 5 /\
  gain (modulationGainNode s) = AudioParam.create 0 /\
  gain (masterGainNode s) = AudioParam.create 1 /\
  (forall t, AudioParam.valueAt (offset (modFreq s)) t = 5 /\
             AudioParam.valueAt (gain (modulationGainNode s)) t = 0 /\
             AudioParam.valueAt (gain (masterGainNode s)) t = db2a 0) /\
  audioOn s = false /\
  (forall evs c o, ~ In Click evs -> delivered (run s evs) c o = None).
Proof.
  intros Hload. apply load_inversion in Hload.
  destruct Hload as [_ [stream [_ ->]]]. simpl.
  repeat split; try reflexivity.
  - unfold db2a. replace (0 / 20) with 0 by lra.
    rewrite Rpower_O by lra. reflexivity.
  - intros evs c o Hno.
    match goal with |- delivered (run ?s0 evs) c o = None =>
      assert (Hrest : atRest (run s0 evs))
        by (apply run_atRest; [exact Hno|split; reflexivity])
    end.
    unfold delivered. destruct Hrest as [-> _]. reflexivity.
Qed.

Lemma initial_state_witness :
  exists s, load exampleHost = inr s /\
    AudioContext.state (liveRingModCtx s) = suspended /\
    delivered (run s [ModInput 12; GainInput (-20); Rendered 1]) 1 1 = None.
Proof.
  eexists. split; [reflexivity|].
  pose proof (initial_state exampleHost _ eq_refl) as H.
  destruct H as [Hst [_ [_ [_ [_ [_ Hsilent]]]]]].
  split; [exact Hst|].
  apply Hsilent. simpl. intros [H|[H|[H|[]]]]; discriminate.
Defined.

(** ** The modulation depth *)

(** C9.  After load the modulation-depth gain is the parameter built with
    gain 0, and no sequence of events changes it: no change is ever
    scheduled on it, its value is 0 at every time, and, nothing being
    connected to it, so is the value it takes in the graph. *)
Theorem depth_never_changes h s evs :
  load h = inr s ->
  gain (modulationGainNode (run s evs)) = AudioParam.create 0 /\
  (forall t, AudioParam.valueAt (gain (modulationGainNode (run s evs))) t = 0) /\
  (forall c o,
     computedValue (run s evs) c o Graph.modulationGainNode_gain = 0).
Proof.
  intros Hload.
  assert (Hg : gain (modulationGainNode (run s evs)) = AudioParam.create 0).
  { rewrite run_modulationGainNode.
    apply load_inversion in Hload. destruct Hload as [_ [stream [_ ->]]].
    reflexivity. }
  split; [exact Hg|]. split.
  - intros t. rewrite Hg. reflexivity.
  - intros c o. unfold computedValue, Graph.computedValue, param.
    rewrite Hg. unfold connections, AudioParam.valueAt. simpl. lra.
Qed.

Lemma depth_never_changes_witness :
  exists s, load exampleHost = inr s /\
    AudioParam.valueAt
      (gain (modulationGainNode
               (run s [Click; Settled None; ModInput 12; Rendered 1;
                       GainInput (-6); Click]))) 1 = 0.
Proof.
  eexists. split; [reflexivity|].
  apply (depth_never_changes exampleHost _
           [Click; Settled None; ModInput 12; Rendered 1; GainInput (-6); Click]
           eq_refl).
Defined.

(** ** The graph as built: no connections *)



(** ** The sliders *)

Lemma modSlider_input_offset s v :
  offset (modFreq (modSlider_input v s)) = update (now s) v (offset (modFreq s)).
Proof. reflexivity. Qed.

Lemma gainSlider_input_gain s v :
  gain (masterGainNode (gainSlider_input v s)) =
  update (now s) (db2a v) (gain (masterGainNode s)).
Proof. reflexivity. Qed.








(** ** Two rate updates in quick succession *)

Lemma update_congr now v p q :
  AudioParam.value p = AudioParam.value q ->
  earlier now (AudioParam.events p) = earlier now (AudioParam.events q) ->
  update now v p = update now v q.
Proof.
  intros Hv He.
  unfold update, AudioParam.cancelScheduledValues.
  fold (earlier now (AudioParam.events p)).
  fold (earlier now (AudioParam.events q)).
  now rewrite Hv, He.
Qed.







(** ** Slider values are taken as they come *)



(** ** The on/off button *)

(** C4 as stated fails: on the loaded state, a click whose [resume()] the
    device rejects leaves [audioOn] true, not false as before. *)
Lemma rejected_toggle_flips_state :
  ~ (forall s e,
       AudioContext.pending (liveRingModCtx s) = [] ->
       audioOn (run s [Click; Settled (Some e)]) = audioOn s /\
       onOff (run s [Click; Settled (Some e)]) = onOff s).
Proof.
  intros H.
  destruct (H exampleScript (DOMException "InvalidStateError") eq_refl)
    as [Hflag _].
  simpl in Hflag. discriminate.
Qed.

(** C4, amended.  When no transition is in flight, a click whose
    [suspend()] or [resume()] is then rejected leaves the flag flipped and
    the label rewritten, both done before the request was answered; the
    context stays in the state it had, the rejection is left uncaught, and
    the next click asks for the opposite transition. *)
Theorem rejected_toggle s e :
  AudioContext.pending (liveRingModCtx s) = [] ->
  let s' := run s [Click; Settled (Some e)] in
  audioOn s' = negb (audioOn s) /\
  onOff s' = Text (if audioOn s then "Turn Off" else "Turn On") /\
  AudioContext.state (liveRingModCtx s') = AudioContext.state (liveRingModCtx s) /\
  AudioContext.pending (liveRingModCtx s') = [] /\
  rejections s' = rejections s ++ [e] /\
  AudioContext.pending (liveRingModCtx (dispatch s' Click))
    = [if audioOn s then running else suspended].
Proof.
  destruct s as [[st t p] mic osc src dep mas on txt l1 l2 log rej].
  simpl. intros ->.
  destruct on; unfold run, onOff_click, onOff_settled; simpl;
    repeat split; reflexivity.
Qed.

Lemma rejected_toggle_witness :
  audioOn (run exampleScript [Click; Settled (Some (DOMException "InvalidStateError"))])
    = true /\
  AudioContext.state
    (liveRingModCtx
       (run exampleScript [Click; Settled (Some (DOMException "InvalidStateError"))]))
    = suspended.
Proof.
  destruct (rejected_toggle exampleScript (DOMException "InvalidStateError") eq_refl)
    as [Hflag [_ [Hstate _]]].
  split; [exact Hflag|exact Hstate].
Defined.

(** C10.  A click flips [audioOn] and writes the label in the same step
    that issues the request, which is then still pending with the context
    in its old state: "Turn Off" with [suspend()] when audio was on,
    "Turn On" with [resume()] when it was off.  The start-up check writes
    "Off" and sets the flag when it finds the context running, and leaves
    the page's text otherwise. *)
Theorem click_labels_before_await s :
  let s' := dispatch s Click in
  audioOn s' = negb (audioOn s) /\
  onOff s' = Text (if audioOn s then "Turn Off" else "Turn On") /\
  AudioContext.pending (liveRingModCtx s')
    = AudioContext.pending (liveRingModCtx s)
      ++ [if audioOn s then suspended else running] /\
  AudioContext.state (liveRingModCtx s') = AudioContext.state (liveRingModCtx s) /\
  (forall t p html,
     initialButton (AudioContext.mk running t p) html = (true, Text "Off")) /\
  (forall t p html,
     initialButton (AudioContext.mk suspended t p) html = (false, html)).
Proof.
  destruct s as [ctx mic osc src dep mas on txt l1 l2 log rej].
  destruct on; unfold onOff_click; simpl; repeat split; reflexivity.
Qed.

(** ** Further properties *)





(** ** Values a timeline can take *)

Section TimelineRange.

Import AudioParam.





Lemma earlier_all t l :
  Forall (fun e => eventTime e < t) l -> earlier t l = l.
Proof.
  induction 1 as [|e l He _ IH]; [reflexivity|].
  unfold earlier in *. simpl.
  destruct (Rltb (eventTime e) t) eqn:E.
  - now rewrite IH.
  - apply Rltb_false in E. lra.
Qed.

(** Two updates at the same context time: the second alone counts. *)
Lemma update_same_instant now v1 v2 p :
  update now v2 (update now v1 p) = update now v2 p.
Proof.
  apply update_congr; [reflexivity|].
  rewrite update_events. unfold earlier at 1. rewrite !filter_app.
  fold (earlier now (earlier now (events p))).
  rewrite (earlier_all now (earlier now (events p))) by apply earlier_before.
  assert (Hstart :
    filter (fun e => Rltb (eventTime e) now)
      (match earlier now (events p) with
       | [] => [SetValue (value p) now]
       | _ :: _ => []
       end) = []).
  { destruct (earlier now (events p)); simpl; [|reflexivity].
    destruct (Rltb now now) eqn:E; [|reflexivity].
    apply Rltb_true in E. lra. }
  rewrite Hstart. simpl.
  destruct (Rltb (now + rampTime) now) eqn:E.
  - apply Rltb_true in E. unfold rampTime in E. lra.
  - now rewrite app_nil_r.
Qed.

End TimelineRange.

(** ** Ranges of the rate and of the output gain *)












(** ** How module evaluation ends *)

(** Module evaluation ends in one of three ways, decided in this order: a
    rejected first [suspend()] is thrown before the microphone is asked
    for; else a rejected [getUserMedia] is thrown; else the script is
    set up, and then - whether or not the host let the new context run -
    the flag is unset, the button keeps the page's text, nothing has been
    logged and no request is pending: the start-up check for a running
    context never fires. *)
Theorem load_outcomes h :
  (forall e, suspendAtLoad h = Some e -> load h = inl e) /\
  (forall e, suspendAtLoad h = None ->
     getUserMedia h micConstraints = inl e -> load h = inl e) /\
  (forall stream, suspendAtLoad h = None ->
     getUserMedia h micConstraints = inr stream ->
     exists s, load h = inr s /\
       mediaStream (micNode s) = stream /\
       audioOn s = false /\ onOff s = buttonText h /\
       console s = [] /\ rejections s = [] /\
       liveRingModCtx s = AudioContext.mk suspended 0 []).
Proof.
  unfold load, await_suspend. split; [|split].
  - intros e ->. reflexivity.
  - intros e -> Hg. simpl. rewrite Hg. reflexivity.
  - intros stream -> Hg. simpl. rewrite Hg. simpl.
    destruct (autoplay h); eexists; (split; [reflexivity|]);
      simpl; repeat split; reflexivity.
Qed.

Lemma load_outcomes_witness :
  exists s, load exampleHost = inr s /\ audioOn s = false /\ onOff s = Text "On".
Proof.
  destruct (proj2 (proj2 (load_outcomes exampleHost)) 0%nat eq_refl eq_refl)
    as [s [Hs [_ [Hon [Hlabel _]]]]].
  exists s. split; [exact Hs|]. split; [exact Hon|exact Hlabel].
Defined.

(** ** How the sliders compose *)

(** Rate inputs that come at one context time (no rendering in between, as
    when the slider is dragged while the context is suspended) leave the
    timeline the last of them alone would leave. *)
Theorem last_rate_input_wins vs : forall s v,
  offset (modFreq (run s (map ModInput (vs ++ [v]))))
  = offset (modFreq (dispatch s (ModInput v))).
Proof.
  induction vs as [|v0 vs IH]; intros s v; [reflexivity|].
  change (run s (map ModInput ((v0 :: vs) ++ [v])))
    with (run (dispatch s (ModInput v0)) (map ModInput (vs ++ [v]))).
  rewrite IH.
  change (dispatch (dispatch s (ModInput v0)) (ModInput v))
    with (modSlider_input v (modSlider_input v0 s)).
  change (dispatch s (ModInput v)) with (modSlider_input v s).
  rewrite !modSlider_input_offset.
  change (now (modSlider_input v0 s)) with (now s).
  apply update_same_instant.
Qed.

(** The same for the output level. *)
Theorem last_level_input_wins vs : forall s v,
  gain (masterGainNode (run s (map GainInput (vs ++ [v]))))
  = gain (masterGainNode (dispatch s (GainInput v))).
Proof.
  induction vs as [|v0 vs IH]; intros s v; [reflexivity|].
  change (run s (map GainInput ((v0 :: vs) ++ [v])))
    with (run (dispatch s (GainInput v0)) (map GainInput (vs ++ [v]))).
  rewrite IH.
  change (dispatch (dispatch s (GainInput v0)) (GainInput v))
    with (gainSlider_input v (gainSlider_input v0 s)).
  change (dispatch s (GainInput v)) with (gainSlider_input v s).
  rewrite !gainSlider_input_gain.
  change (now (gainSlider_input v0 s)) with (now s).
  apply update_same_instant.
Qed.

(** The two sliders do not interfere: in either order they leave the same
    script state. *)
Theorem sliders_commute s a b :
  run s [ModInput a; GainInput b] = run s [GainInput b; ModInput a].
Proof.
  destruct s as [ctx mic osc src dep mas on txt l1 l2 log rej].
  reflexivity.
Qed.

(** ** What runs leave untouched *)

Lemma dispatch_framed s e :
  framed (noRate e) (noLevel e) (noClick e) (noRender e) s (dispatch s e).
Proof.
  destruct s as [[st t p] mic osc src dep mas on txt l1 l2 log rej].
  unfold framed.
  destruct e as [|r|v|v|dt]; simpl;
    unfold onOff_click, onOff_settled, AudioContext.advance, now; simpl.
  - destruct on; simpl; repeat split; try reflexivity; contradiction.
  - destruct p; simpl; [|destruct r; simpl]; repeat split; reflexivity.
  - repeat split; try reflexivity; contradiction.
  - repeat split; try reflexivity; contradiction.
  - destruct st; simpl; repeat split; try reflexivity; contradiction.
Qed.

(** No run moves the microphone node, the oscillator, the depth gain node
    or the started flag of the constant source.  A run without rate
    inputs leaves the constant source and its label alone; one without
    level inputs, the output gain node and its label; one without clicks,
    the flag and the button; one without rendering, the context time. *)
Theorem run_framed evs : forall s,
  framed (Forall noRate evs) (Forall noLevel evs) (Forall noClick evs)
         (Forall noRender evs) s (run s evs).
Proof.
  unfold run. induction evs as [|e evs IH]; intros s; simpl.
  - unfold framed. repeat split; reflexivity.
  - specialize (IH (dispatch s e)).
    pose proof (dispatch_framed s e) as Hd.
    destruct IH as [[I1 [I2 [I3 I4]]] [IR [IL [IC IT]]]].
    destruct Hd as [[D1 [D2 [D3 D4]]] [DR [DL [DC DT]]]].
    split; [|split; [|split; [|split]]].
    + repeat split; congruence.
    + intros H. inversion H as [|? ? He Hr]; subst.
      destruct (IR Hr), (DR He). split; congruence.
    + intros H. inversion H as [|? ? He Hr]; subst.
      destruct (IL Hr), (DL He). split; congruence.
    + intros H. inversion H as [|? ? He Hr]; subst.
      destruct (IC Hr), (DC He). split; congruence.
    + intros H. inversion H as [|? ? He Hr]; subst.
      rewrite (IT Hr). exact (DT He).
Qed.

Lemma run_framed_witness :
  modFreq (run exampleScript [Click; GainInput (-6); Settled None; Rendered 1])
  = modFreq exampleScript.
Proof.
  apply (proj1 (proj2 (run_framed
           [Click; GainInput (-6); Settled None; Rendered 1] exampleScript))).
  repeat constructor.
Defined.

(** ** The button, the flag and the context *)

Lemma dispatch_labelled s e : labelled s -> labelled (dispatch s e).
Proof.
  destruct s as [[st t p] mic osc src dep mas on txt l1 l2 log rej].
  unfold labelled. simpl. intros H.
  destruct e as [|r|v|v|dt]; simpl;
    unfold onOff_click, onOff_settled; simpl.
  - destruct on; reflexivity.
  - destruct p; simpl; [|destruct r; simpl]; exact H.
  - exact H.
  - exact H.
  - exact H.
Qed.

Lemma click_labelled s : labelled (dispatch s Click).
Proof.
  destruct s as [ctx mic osc src dep mas on txt l1 l2 log rej].
  unfold labelled. simpl. unfold onOff_click. simpl. destruct on; reflexivity.
Qed.

Lemma run_labelled evs : forall s,
  labelled s \/ In Click evs -> labelled (run s evs).
Proof.
  unfold run. induction evs as [|e evs IH]; intros s H; simpl.
  - destruct H as [H|[]]. exact H.
  - apply IH. destruct H as [H|[->|H]].
    + left. now apply dispatch_labelled.
    + left. apply click_labelled.
    + now right.
Qed.

(** After load, until the first click the button shows the page's text
    and the flag is unset; from the first click on, through any events,
    the button reads "Turn On" exactly while the flag is set and
    "Turn Off" while it is not. *)
Theorem button_follows_flag h s evs :
  load h = inr s ->
  (In Click evs ->
   onOff (run s evs) = Text (if audioOn (run s evs) then "Turn On" else "Turn Off")) /\
  (~ In Click evs ->
   onOff (run s evs) = buttonText h /\ audioOn (run s evs) = false).
Proof.
  intros Hload. split.
  - intros Hin. apply (run_labelled evs s). now right.
  - intros Hno.
    destruct (run_framed evs s) as [_ [_ [_ [HC _]]]].
    assert (Hall : Forall noClick evs).
    { apply Forall_forall. intros e He. destruct e; simpl; auto. }
    destruct (HC Hall) as [-> ->].
    apply load_inversion in Hload. destruct Hload as [_ [stream [_ ->]]].
    split; reflexivity.
Qed.

Lemma button_follows_flag_witness :
  onOff (run exampleScript [ModInput 3; Click; Settled None; Click])
  = Text "Turn Off".
Proof.
  apply (proj1 (button_follows_flag exampleHost exampleScript
                  [ModInput 3; Click; Settled None; Click] eq_refl)).
  simpl. auto.
Defined.





(** Clicks are not held back while a request is in flight: [n] clicks in
    a row leave [n] more requests pending, keep the context in its state
    and at its time, and leave the flag as it was when [n] is even,
    flipped when it is odd. *)
Theorem clicks_pile_up n : forall s,
  let s' := run s (repeat Click n) in
  List.length (AudioContext.pending (liveRingModCtx s'))
    = (List.length (AudioContext.pending (liveRingModCtx s)) + n)%nat /\
  AudioContext.state (liveRingModCtx s') = AudioContext.state (liveRingModCtx s) /\
  now s' = now s /\
  audioOn s' = if Nat.even n then audioOn s else negb (audioOn s).
Proof.
  induction n as [|n IH]; intros s.
  - simpl. repeat split. now rewrite Nat.add_0_r.
  - change (run s (repeat Click (S n)))
      with (run (dispatch s Click) (repeat Click n)).
    destruct (IH (dispatch s Click)) as [Hl [Hs [Ht Hf]]].
    cbv zeta. rewrite Hl, Hs, Ht, Hf, Nat.even_succ, <- Nat.negb_even.
    destruct s as [[st t p] mic osc src dep mas on txt l1 l2 log rej].
    simpl. unfold onOff_click. simpl.
    destruct on; simpl; rewrite List.length_app; simpl;
      rewrite <- Nat.add_assoc; simpl;
      destruct (Nat.even n); repeat split; reflexivity.
Qed.

(** ** What the rate listener logs *)

Lemma run_console_zero evs : forall s,
  frequency (modOsc s) = AudioParam.create 0 ->
  Forall logsZero (console s) ->
  Forall logsZero (console (run s evs)).
Proof.
  unfold run. induction evs as [|e evs IH]; intros s Hf Hc; simpl; [exact Hc|].
  apply IH; [now rewrite dispatch_modOsc|].
  destruct s as [[st t p] mic osc src dep mas on txt l1 l2 log rej].
  simpl in *.
  destruct e as [|r|v|v|dt]; simpl;
    unfold onOff_click, onOff_settled; simpl.
  - destruct on; simpl; apply Forall_app; split; auto;
      constructor; simpl; auto.
  - destruct p; simpl; [|destruct r; simpl]; exact Hc.
  - apply Forall_app. split; [exact Hc|].
    constructor; [|constructor]. simpl. rewrite Hf. reflexivity.
  - exact Hc.
  - exact Hc.
Qed.

(** After load, every number the rate listener logs - the oscillator's
    frequency value it reads after scheduling the ramp - is 0, whatever
    the rates sent and whenever. *)
Theorem logged_frequency_is_zero h s evs :
  load h = inr s -> Forall logsZero (console (run s evs)).
Proof.
  intros Hload. apply load_inversion in Hload.
  destruct Hload as [_ [stream [_ ->]]].
  apply run_console_zero; [reflexivity|constructor].
Qed.

Lemma logged_frequency_is_zero_witness :
  Forall logsZero
    (console (run exampleScript
                [Click; Settled None; ModInput 12; Rendered 1; ModInput 40])).
Proof.
  apply (logged_frequency_is_zero exampleHost exampleScript
           [Click; Settled None; ModInput 12; Rendered 1; ModInput 40] eq_refl).
Defined.

(** ** Notes to frequencies *)



